(** * Verification of the filter_rx_pipeline simulation driver

    Source: plugin/p2p/box_250mhz/filter_rx_pipeline/scripts/sim_main.cpp

    The driver is a single procedure, [main], that talks to two external
    collaborators: the simulation runtime (class [Verilated], reached only
    through the static calls [Verilated::commandArgs] and
    [Verilated::gotFinish]) and the generated model
    ([Vfilter_rx_pipeline_tb], reached through [new], [tb->eval()] and
    [delete]).  Neither collaborator is defined in the driver's file, so
    both are taken as parameters: an arbitrary [Runtime] supplies the state
    of the outside world and the effect of each call on it.  The driver is
    embedded as a program in a state monad over that world, instrumented
    with the trace of the external calls it makes.

    Each external call is modelled as a total function of the world: it
    returns to the driver.  A callee that ends the process on its own
    ([exit], [abort], an exception nobody catches) is outside this model,
    as it is outside the driver's file. *)

From Stdlib Require Import ZArith List Bool String Lia.
Import ListNotations.

Local Open Scope Z_scope.

(** ** The external collaborators *)

(** Everything the driver does not define.  [World] is the state of the
    process outside the driver (runtime configuration, model internals,
    heap); [handle] is the type of the pointer returned by [new]. *)
Class Runtime : Type := {
  World : Type;
  handle : Type;
  (** [Verilated::commandArgs(argc, argv)] *)
  commandArgs : Z -> list string -> World -> World;
  (** [new Vfilter_rx_pipeline_tb] *)
  new_tb : World -> handle * World;
  (** [Verilated::gotFinish()]: a static getter, it takes no model *)
  gotFinish : World -> bool;
  (** [tb->eval()] *)
  eval : handle -> World -> World;
  (** [delete tb] *)
  delete_tb : handle -> World -> World
}.

(** ** Machine integers *)

(** The loop counter is a C++ [int]: 32 bits, two's complement. *)
Definition int_wrap (z : Z) : Z := (z + 2 ^ 31) mod 2 ^ 32 - 2 ^ 31.

(** [i++] on an [int]. *)
Definition incr (i : Z) : Z := int_wrap (i + 1).

(** The iteration ceiling written in the loop condition. *)
Definition MAX_ITERATIONS : Z := 200000.

Section Driver.

Context {R : Runtime}.

(** ** Observable calls *)

(** One constructor per call expression of [main]. *)
Inductive event : Type :=
| EvCommandArgs (argc : Z) (argv : list string)
| EvNew (tb : handle)
| EvGotFinish (answer : bool)
| EvEval (tb : handle)
| EvDelete (tb : handle).

(** The receiver of a call: the static runtime class or a model object. *)
Inductive target : Type :=
| OnRuntime
| OnModel (tb : handle).

Definition event_target (e : event) : target :=
  match e with
  | EvCommandArgs _ _ => OnRuntime
  | EvNew tb => OnModel tb
  | EvGotFinish _ => OnRuntime
  | EvEval tb => OnModel tb
  | EvDelete tb => OnModel tb
  end.

Definition is_commandArgs (e : event) : bool :=
  match e with EvCommandArgs _ _ => true | _ => false end.
Definition is_new (e : event) : bool :=
  match e with EvNew _ => true | _ => false end.
Definition is_gotFinish (e : event) : bool :=
  match e with EvGotFinish _ => true | _ => false end.
Definition is_eval (e : event) : bool :=
  match e with EvEval _ => true | _ => false end.
Definition is_delete (e : event) : bool :=
  match e with EvDelete _ => true | _ => false end.

(** Number of events of a trace that satisfy a test. *)
Definition count (p : event -> bool) (tr : list event) : nat :=
  List.length (filter p tr).

(** The answers the runtime gave to the completion queries, in order. *)
Fixpoint responses (tr : list event) : list bool :=
  match tr with
  | [] => []
  | EvGotFinish b :: tr' => b :: responses tr'
  | _ :: tr' => responses tr'
  end.

(** ** The driver's monad *)

(** State threaded through the driver: the outside world and the calls
    made so far, newest first. *)
Record state : Type := mkState {
  world : World;
  log : list event
}.

(** The calls made so far, in the order they were made. *)
Definition trace (s : state) : list event := rev_append (log s) [].

Definition initial (w : World) : state := mkState w [].

(** A computation either yields a value and a new state or runs out of
    fuel ([None]); fuel only bounds the unrolling of the [for] loop. *)
Definition M (A : Type) : Type := state -> option (A * state).

Definition ret {A : Type} (a : A) : M A := fun s => Some (a, s).

Definition bind {A B : Type} (m : M A) (k : A -> M B) : M B :=
  fun s => match m s with
           | Some (a, s') => k a s'
           | None => None
           end.

Definition out_of_fuel {A : Type} : M A := fun _ => None.

End Driver.

Declare Scope driver_scope.
Delimit Scope driver_scope with driver.
Notation "x <- m ;; k" := (bind m (fun x => k))
  (at level 61, m at next level, right associativity) : driver_scope.
Notation "m ;; k" := (bind m (fun _ => k))
  (at level 61, right associativity) : driver_scope.

Section Program.

Context {R : Runtime}.
Local Open Scope driver_scope.

(** ** The calls, as monadic actions *)

Definition Verilated_commandArgs (argc : Z) (argv : list string) : M unit :=
  fun s => Some (tt, mkState (commandArgs argc argv (world s))
                             (EvCommandArgs argc argv :: log s)).

Definition new_Vfilter_rx_pipeline_tb : M handle :=
  fun s => let (tb, w) := new_tb (world s) in
           Some (tb, mkState w (EvNew tb :: log s)).

Definition Verilated_gotFinish : M bool :=
  fun s => let b := gotFinish (world s) in
           Some (b, mkState (world s) (EvGotFinish b :: log s)).

Definition tb_eval (tb : handle) : M unit :=
  fun s => Some (tt, mkState (eval tb (world s)) (EvEval tb :: log s)).

Definition delete (tb : handle) : M unit :=
  fun s => Some (tt, mkState (delete_tb tb (world s))
                             (EvDelete tb :: log s)).

(** ** The program *)

(** The loop condition [i < 200000 && !Verilated::gotFinish()].  [&&]
    short-circuits: the runtime is not queried once [i] reaches the
    ceiling. *)
Definition loop_condition (i : Z) : M bool :=
  if i <? MAX_ITERATIONS
  then (b <- Verilated_gotFinish ;; ret (negb b))
  else ret false.

(** [for (int i = ...; i < 200000 && !Verilated::gotFinish(); i++)
      tb->eval();] started at counter value [i]. *)
Fixpoint for_loop (fuel : nat) (i : Z) (tb : handle) : M unit :=
  match fuel with
  | O => out_of_fuel
  | S fuel' =>
      go <- loop_condition i ;;
      if go : bool
      then (tb_eval tb ;; for_loop fuel' (incr i) tb)
      else ret tt
  end.

(** [main] with an explicit bound on the unrolling of its loop. *)
Definition main_with (fuel : nat) (argc : Z) (argv : list string) : M Z :=
  Verilated_commandArgs argc argv ;;
  tb <- new_Vfilter_rx_pipeline_tb ;;
  for_loop fuel 0 tb ;;
  delete tb ;;
  ret 0.

(** Fuel that is always enough: one condition check more than the
    ceiling. *)
Definition main_fuel : nat := S (Z.to_nat MAX_ITERATIONS).

(** [int main(int argc, char **argv)]; the value returned is the process
    exit status. *)
Definition main (argc : Z) (argv : list string) : M Z :=
  main_with main_fuel argc argv.

End Program.

(** ** What a run looks like, stated without the monad *)

Section Behaviour.

Context {R : Runtime}.

(** The world after [n] further evaluation steps of model [tb]. *)
Fixpoint after_evals (n : nat) (tb : handle) (w : World) : World :=
  match n with
  | O => w
  | S n' => after_evals n' tb (eval tb w)
  end.

(** The model raises the completion flag during its [k]-th evaluation
    step: the flag is down before each of the first [k] steps and up once
    step [k] is done.  ([k = 0]: the flag is up before any step.) *)
Definition raises_at (k : nat) (tb : handle) (w : World) : Prop :=
  (forall j, (j < k)%nat -> gotFinish (after_evals j tb w) = false) /\
  gotFinish (after_evals k tb w) = true.

(** The model never raises the completion flag, however long it is
    evaluated. *)
Definition never_raises (tb : handle) (w : World) : Prop :=
  forall j, gotFinish (after_evals j tb w) = false.

(** Number of loop bodies executed when at most [budget] iterations
    remain. *)
Fixpoint trip_count (budget : nat) (tb : handle) (w : World) : nat :=
  match budget with
  | O => O
  | S b => if gotFinish w then O else S (trip_count b tb (eval tb w))
  end.

(** [n] uninterrupted iterations: a query answered "not finished", then
    one evaluation step. *)
Fixpoint iterations (n : nat) (tb : handle) : list event :=
  match n with
  | O => []
  | S n' => EvGotFinish false :: EvEval tb :: iterations n' tb
  end.

(** The calls made by the loop when at most [budget] iterations remain. *)
Fixpoint loop_trace (budget : nat) (tb : handle) (w : World) : list event :=
  match budget with
  | O => []
  | S b =>
      if gotFinish w
      then [EvGotFinish true]
      else EvGotFinish false :: EvEval tb :: loop_trace b tb (eval tb w)
  end.

(** The iteration ceiling as a number of iterations. *)
Definition ceiling : nat := Z.to_nat MAX_ITERATIONS.

(** The instance and the world handed to the loop: arguments processed,
    model constructed. *)
Definition model_start (argc : Z) (argv : list string) (w : World)
  : handle * World :=
  new_tb (commandArgs argc argv w).

(** A whole run of the process from world [w]. *)
Definition run (argc : Z) (argv : list string) (w : World)
  : option (Z * state) :=
  main argc argv (initial w).

(** The answers to the completion queries of a whole run. *)
Definition observed_responses (argc : Z) (argv : list string) (w : World)
  : list bool :=
  match run argc argv w with
  | Some (_, st) => responses (trace st)
  | None => []
  end.

(** The specification's reading of the model handle, on a given trace:
    it is driven through two operations, evaluation and the completion
    query.  Every call on a model object is one of the two, and every
    completion query is a call on a model object. *)
Definition two_handle_operations (tr : list event) : Prop :=
  (forall e tb, In e tr -> event_target e = OnModel tb ->
                is_eval e = true \/ is_gotFinish e = true) /\
  (forall e, In e tr -> is_gotFinish e = true ->
             exists tb, event_target e = OnModel tb).


(** Nothing is evaluated once a completion query was answered
    "finished". *)
Definition no_eval_after_finish (tr : list event) : Prop :=
  forall pre post, tr = pre ++ EvGotFinish true :: post ->
    count is_eval post = O.

End Behaviour.

(** ** Concrete runtimes

    Small executable stand-ins for the external collaborators, used to
    run the driver on concrete inputs. *)

(** State of the stand-in: the arguments the runtime has recorded, the
    number of evaluation steps the model has taken, and the addresses of
    the model instances that are allocated. *)
Record sim : Type := mkSim {
  sim_args : list string;
  sim_steps : Z;
  sim_live : list Z
}.

(** A model whose design finishes during evaluation step [n]; the runtime
    stores the argument vector it is given; [new] returns address [4096]
    and records it as allocated, [delete] releases the address it is
    given. *)
Definition countdown (n : Z) : Runtime := {|
  World := sim;
  handle := Z;
  commandArgs := fun _ argv w => mkSim argv (sim_steps w) (sim_live w);
  new_tb := fun w =>
    (4096, mkSim (sim_args w) (sim_steps w) (4096 :: sim_live w));
  gotFinish := fun w => n <=? sim_steps w;
  eval := fun _ w => mkSim (sim_args w) (sim_steps w + 1) (sim_live w);
  delete_tb := fun tb w =>
    mkSim (sim_args w) (sim_steps w) (remove Z.eq_dec tb (sim_live w))
|}.

(** A model that runs forever: the completion flag stays down. *)
Definition free_running : Runtime := {|
  World := sim;
  handle := Z;
  commandArgs := fun _ argv w => mkSim argv (sim_steps w) (sim_live w);
  new_tb := fun w =>
    (4096, mkSim (sim_args w) (sim_steps w) (4096 :: sim_live w));
  gotFinish := fun _ => false;
  eval := fun _ w => mkSim (sim_args w) (sim_steps w + 1) (sim_live w);
  delete_tb := fun tb w =>
    mkSim (sim_args w) (sim_steps w) (remove Z.eq_dec tb (sim_live w))
|}.

(** The process starts with nothing recorded, nothing evaluated and
    nothing allocated. *)
Definition boot : sim := mkSim [] 0 [].

(** ** The counter never wraps *)

Lemma int_wrap_small (z : Z) :
  - 2 ^ 31 <= z < 2 ^ 31 -> int_wrap z = z.
Proof.
  intros Hz. unfold int_wrap.
  rewrite Z.mod_small by lia. lia.
Qed.

Lemma incr_below_ceiling (i : Z) :
  0 <= i < MAX_ITERATIONS -> incr i = i + 1.
Proof.
  unfold MAX_ITERATIONS, incr. intros Hi.
  apply int_wrap_small. lia.
Qed.

Lemma budget_step (i : Z) :
  0 <= i < MAX_ITERATIONS ->
  Z.to_nat (MAX_ITERATIONS - i) = S (Z.to_nat (MAX_ITERATIONS - (i + 1))).
Proof. intros Hi. lia. Qed.

(** ** Counting *)

Section Counting.

Context {R : Runtime}.

Lemma count_app (p : event -> bool) (l1 l2 : list event) :
  count p (l1 ++ l2) = (count p l1 + count p l2)%nat.
Proof. unfold count. rewrite filter_app, length_app. reflexivity. Qed.

Lemma count_cons (p : event -> bool) (e : event) (l : list event) :
  count p (e :: l) = ((if p e then 1 else 0) + count p l)%nat.
Proof. unfold count. simpl. destruct (p e); reflexivity. Qed.

Lemma trip_count_le (b : nat) (tb : handle) (w : World) :
  (trip_count b tb w <= b)%nat.
Proof.
  revert w. induction b as [|b IH]; intros w; simpl.
  - constructor.
  - destruct (gotFinish w); [lia|]. specialize (IH (eval tb w)). lia.
Qed.

Lemma count_eval_loop_trace (b : nat) (tb : handle) (w : World) :
  count is_eval (loop_trace b tb w) = trip_count b tb w.
Proof.
  revert w. induction b as [|b IH]; intros w; simpl; [reflexivity|].
  destruct (gotFinish w); [reflexivity|].
  rewrite !count_cons, IH. reflexivity.
Qed.

Lemma count_other_loop_trace (p : event -> bool) (b : nat) (tb : handle)
      (w : World) :
  (forall a, p (EvGotFinish a) = false) -> p (EvEval tb) = false ->
  count p (loop_trace b tb w) = O.
Proof.
  intros Hq He. revert w. induction b as [|b IH]; intros w; simpl.
  - reflexivity.
  - destruct (gotFinish w).
    + rewrite count_cons, Hq. reflexivity.
    + rewrite !count_cons, Hq, He, IH. reflexivity.
Qed.

Lemma count_eval_iterations (n : nat) (tb : handle) :
  count is_eval (iterations n tb) = n.
Proof.
  induction n as [|n IH]; simpl; [reflexivity|].
  rewrite !count_cons, IH. reflexivity.
Qed.

(** The loop's calls are a run of complete iterations, closed by the
    query that saw the flag unless the ceiling was reached first. *)
Lemma loop_trace_shape (b : nat) (tb : handle) (w : World) :
  loop_trace b tb w =
  iterations (trip_count b tb w) tb ++
  (if (trip_count b tb w <? b)%nat then [EvGotFinish true] else []).
Proof.
  revert w. induction b as [|b IH]; intros w; simpl; [reflexivity|].
  destruct (gotFinish w); [reflexivity|].
  simpl. rewrite IH at 1. reflexivity.
Qed.

Lemma trip_count_raises (b k : nat) (tb : handle) (w : World) :
  raises_at k tb w -> (k < b)%nat -> trip_count b tb w = k.
Proof.
  revert k w. induction b as [|b IH]; intros k w [Hlow Hup] Hk; [lia|].
  simpl. destruct k as [|k].
  - simpl in Hup. rewrite Hup. reflexivity.
  - assert (H0 : gotFinish w = false) by (apply (Hlow O); lia).
    rewrite H0. f_equal. apply IH; [|lia].
    split; [|exact Hup].
    intros j Hj. apply (Hlow (S j)). lia.
Qed.

Lemma trip_count_never (b : nat) (tb : handle) (w : World) :
  (forall j, (j < b)%nat -> gotFinish (after_evals j tb w) = false) ->
  trip_count b tb w = b.
Proof.
  revert w. induction b as [|b IH]; intros w Hlow; [reflexivity|].
  assert (H0 : gotFinish w = false) by (apply (Hlow O); lia).
  simpl. rewrite H0. f_equal. apply IH.
  intros j Hj. apply (Hlow (S j)). lia.
Qed.

End Counting.

(** ** Running the loop and the program *)

Section Running.

Context {R : Runtime}.

(** With fuel for one condition check more than the iterations that
    remain, the loop returns, and its effect is the one described by
    [trip_count] and [loop_trace]. *)
Lemma for_loop_run (fuel : nat) :
  forall (i : Z) (tb : handle) (s : state),
    0 <= i <= MAX_ITERATIONS ->
    (Z.to_nat (MAX_ITERATIONS - i) < fuel)%nat ->
    for_loop fuel i tb s =
    Some (tt,
          mkState
            (after_evals
               (trip_count (Z.to_nat (MAX_ITERATIONS - i)) tb (world s))
               tb (world s))
            (rev (loop_trace (Z.to_nat (MAX_ITERATIONS - i)) tb (world s))
             ++ log s)).
Proof.
  induction fuel as [|fuel IH]; intros i tb s Hi Hfuel; [lia|].
  cbn [for_loop]. unfold bind at 1. unfold loop_condition.
  destruct (Z.ltb_spec i MAX_ITERATIONS) as [Hlt|Hge].
  - rewrite (budget_step i) by lia.
    cbn [trip_count loop_trace].
    unfold bind, Verilated_gotFinish, ret. cbn [world log].
    destruct (gotFinish (world s)); cbn [negb].
    + reflexivity.
    + unfold tb_eval. rewrite incr_below_ceiling by lia.
      rewrite IH by (cbn [world]; lia).
      cbn [world log after_evals rev].
      rewrite <- !app_assoc. reflexivity.
  - replace (Z.to_nat (MAX_ITERATIONS - i)) with O by lia.
    unfold ret. cbn [trip_count loop_trace after_evals rev app].
    destruct s; reflexivity.
Qed.

(** The program with any sufficient fuel, from any state. *)
Lemma main_with_run (fuel : nat) (argc : Z) (argv : list string)
      (s : state) :
  (ceiling < fuel)%nat ->
  main_with fuel argc argv s =
  let tb := fst (model_start argc argv (world s)) in
  let w := snd (model_start argc argv (world s)) in
  Some (0,
        mkState
          (delete_tb tb (after_evals (trip_count ceiling tb w) tb w))
          (rev ([EvCommandArgs argc argv; EvNew tb] ++
                loop_trace ceiling tb w ++ [EvDelete tb]) ++ log s)).
Proof.
  intros Hfuel. unfold main_with, model_start.
  unfold bind at 1. unfold Verilated_commandArgs.
  unfold bind at 1. unfold new_Vfilter_rx_pipeline_tb. cbn [world log].
  destruct (new_tb (commandArgs argc argv (world s))) as [tb w].
  unfold bind at 1.
  rewrite for_loop_run by (unfold ceiling, MAX_ITERATIONS in *; lia).
  replace (Z.to_nat (MAX_ITERATIONS - 0)) with ceiling
    by (unfold ceiling; f_equal; lia).
  unfold bind, delete, ret. cbn [world log fst snd].
  repeat f_equal.
  rewrite !rev_app_distr. cbn [rev app].
  rewrite <- !app_assoc. reflexivity.
Qed.

(** A whole run, in closed form: it returns status 0, and the final world
    and the calls made are as follows. *)
Lemma run_closed_form (argc : Z) (argv : list string) (w0 : World) :
  let tb := fst (model_start argc argv w0) in
  let w := snd (model_start argc argv w0) in
  exists st,
    run argc argv w0 = Some (0, st) /\
    world st = delete_tb tb (after_evals (trip_count ceiling tb w) tb w) /\
    trace st = [EvCommandArgs argc argv; EvNew tb] ++
               loop_trace ceiling tb w ++ [EvDelete tb].
Proof.
  intros tb w. unfold run, main.
  rewrite main_with_run by (unfold main_fuel, ceiling; lia).
  cbv zeta. eexists. split; [reflexivity|].
  unfold trace. cbn [world log initial].
  rewrite <- rev_alt, app_nil_r, rev_involutive. split; reflexivity.
Qed.

(** More fuel than [main_fuel] changes nothing. *)
Lemma fuel_irrelevant (fuel : nat) (argc : Z) (argv : list string)
      (s : state) :
  (ceiling < fuel)%nat ->
  main_with fuel argc argv s = main argc argv s.
Proof.
  intros Hfuel. unfold main.
  rewrite !main_with_run by (unfold main_fuel, ceiling in *; lia).
  reflexivity.
Qed.

End Running.

(** ** Sample runs *)

Example run_countdown_2 :
  @run (countdown 2) 2 ["sim"; "+verbose"]%string boot =
  Some (0,
        mkState (R := countdown 2)
          (mkSim ["sim"; "+verbose"]%string 2 [])
          [EvDelete (R := countdown 2) 4096; EvGotFinish true;
           EvEval (R := countdown 2) 4096; EvGotFinish false;
           EvEval (R := countdown 2) 4096; EvGotFinish false;
           EvNew (R := countdown 2) 4096;
           EvCommandArgs 2 ["sim"; "+verbose"]%string]).
Proof. vm_compute. reflexivity. Qed.

(** The fuel of [main] is tight: with one unit less, a model that never
    finishes exhausts it before the loop is left.  (Shown on a scale
    model of the loop, started three iterations below the ceiling.) *)
Example for_loop_needs_its_fuel :
  @for_loop free_running 3 (MAX_ITERATIONS - 3) 4096
            (initial (R := free_running) boot) = None /\
  exists st,
    @for_loop free_running 4 (MAX_ITERATIONS - 3) 4096
              (initial (R := free_running) boot) = Some (tt, st) /\
    sim_steps (world st) = 3.
Proof.
  split; [vm_compute; reflexivity|].
  eexists. split; vm_compute; reflexivity.
Qed.

(** ** Order of the calls *)

Section Ordering.

Context {R : Runtime}.


(** Inside the loop, with the closing [delete] appended: a query answered
    "finished" is followed by the [delete] alone. *)
Lemma loop_finish_last (b : nat) (tb : handle) :
  forall w pre post,
    loop_trace b tb w ++ [EvDelete tb] = pre ++ EvGotFinish true :: post ->
    post = [EvDelete tb].
Proof.
  induction b as [|b IH]; intros w pre post Heq; cbn [loop_trace] in Heq.
  - destruct pre as [|e [|e' pre]]; discriminate Heq.
  - destruct (gotFinish w).
    + destruct pre as [|e [|e' [|e'' pre]]]; try discriminate Heq.
      injection Heq as Hpost. symmetry. exact Hpost.
    + destruct pre as [|e [|e' pre]]; try discriminate Heq.
      injection Heq as _ _ Hrest. exact (IH _ _ _ Hrest).
Qed.


Lemma whole_no_eval_after_finish (argc : Z) (argv : list string) (b : nat)
      (tb : handle) (w : World) :
  no_eval_after_finish ([EvCommandArgs argc argv; EvNew tb] ++
                        loop_trace b tb w ++ [EvDelete tb]).
Proof.
  intros pre post Heq.
  destruct pre as [|e [|e' pre]]; try discriminate Heq.
  injection Heq as _ _ Hrest.
  rewrite (loop_finish_last b tb w _ _ Hrest). reflexivity.
Qed.

(** Every call of the loop is an evaluation step on [tb] or a completion
    query. *)
Lemma loop_trace_calls (b : nat) (tb : handle) :
  forall w, Forall (fun e => e = EvEval tb \/ exists a, e = EvGotFinish a)
                   (loop_trace b tb w).
Proof.
  induction b as [|b IH]; intros w; cbn [loop_trace].
  - constructor.
  - destruct (gotFinish w).
    + constructor; [right; eauto | constructor].
    + constructor; [right; eauto|].
      constructor; [left; reflexivity | apply IH].
Qed.

(** The evaluation calls of the loop are as many as the queries answered
    "not finished". *)
Lemma loop_evals_from_responses (b : nat) (tb : handle) :
  forall w, count is_eval (loop_trace b tb w) =
            List.length (filter negb (responses (loop_trace b tb w))).
Proof.
  induction b as [|b IH]; intros w; cbn [loop_trace]; [reflexivity|].
  destruct (gotFinish w); [reflexivity|].
  rewrite !count_cons. cbn [is_eval responses filter negb List.length].
  rewrite IH. reflexivity.
Qed.

Lemma responses_app (l1 l2 : list event) :
  responses (l1 ++ l2) = responses l1 ++ responses l2.
Proof.
  induction l1 as [|e l1 IH]; [reflexivity|].
  destruct e; cbn [responses app]; rewrite IH; reflexivity.
Qed.

End Ordering.

(** ** The two ways out of the loop *)

Section Exits.

Context {R : Runtime}.

Lemma ceiling_value : Z.of_nat ceiling = 200000.
Proof. unfold ceiling, MAX_ITERATIONS. lia. Qed.

(** Early completion: [k] whole iterations, then the query that sees the
    flag. *)
Lemma loop_trace_early (k : nat) (tb : handle) (w : World) :
  raises_at k tb w -> (k < ceiling)%nat ->
  loop_trace ceiling tb w = iterations k tb ++ [EvGotFinish true].
Proof.
  intros Hraise Hk.
  rewrite loop_trace_shape, (trip_count_raises ceiling k tb w Hraise Hk).
  destruct (Nat.ltb_spec k ceiling) as [_|Hge]; [reflexivity | lia].
Qed.

(** Exhaustion: the ceiling's worth of whole iterations, and no further
    query. *)
Lemma loop_trace_exhausted (tb : handle) (w : World) :
  (forall j, (j < ceiling)%nat -> gotFinish (after_evals j tb w) = false) ->
  loop_trace ceiling tb w = iterations ceiling tb.
Proof.
  intros Hdown.
  rewrite loop_trace_shape, (trip_count_never ceiling tb w Hdown).
  rewrite Nat.ltb_irrefl. apply app_nil_r.
Qed.

Lemma count_delete_whole (argc : Z) (argv : list string) (b : nat)
      (tb : handle) (w : World) :
  count is_delete ([EvCommandArgs argc argv; EvNew tb] ++
                   loop_trace b tb w ++ [EvDelete tb]) = 1%nat.
Proof.
  rewrite !count_app, (count_other_loop_trace is_delete) by reflexivity.
  reflexivity.
Qed.

Lemma count_new_whole (argc : Z) (argv : list string) (b : nat)
      (tb : handle) (w : World) :
  count is_new ([EvCommandArgs argc argv; EvNew tb] ++
                loop_trace b tb w ++ [EvDelete tb]) = 1%nat.
Proof.
  rewrite !count_app, (count_other_loop_trace is_new) by reflexivity.
  reflexivity.
Qed.

Lemma count_eval_whole (argc : Z) (argv : list string) (b : nat)
      (tb : handle) (w : World) :
  count is_eval ([EvCommandArgs argc argv; EvNew tb] ++
                 loop_trace b tb w ++ [EvDelete tb]) = trip_count b tb w.
Proof.
  rewrite !count_app, count_eval_loop_trace.
  cbn. apply Nat.add_0_r.
Qed.

End Exits.

(** ** Runs that see the same flag *)

Section SameFlag.

Context {R : Runtime}.

(** Two models whose flags agree step by step, as far as the budget
    reaches, are evaluated the same number of times. *)
Lemma trip_count_same_flag (b : nat) (tb1 tb2 : handle) :
  forall w1 w2,
    (forall j, (j < b)%nat ->
               gotFinish (after_evals j tb1 w1) =
               gotFinish (after_evals j tb2 w2)) ->
    trip_count b tb1 w1 = trip_count b tb2 w2.
Proof.
  induction b as [|b IH]; intros w1 w2 Hsame; [reflexivity|].
  cbn [trip_count].
  assert (H0 : gotFinish w1 = gotFinish w2) by (apply (Hsame O); lia).
  rewrite <- H0. destruct (gotFinish w1); [reflexivity|].
  f_equal. apply IH. intros j Hj. apply (Hsame (S j)). lia.
Qed.

(** The answers seen by the loop are fixed by the number of its
    iterations. *)
Lemma responses_loop_trace (b : nat) (tb : handle) :
  forall w,
    responses (loop_trace b tb w) =
    repeat false (trip_count b tb w) ++
    (if (trip_count b tb w <? b)%nat then [true] else []).
Proof.
  induction b as [|b IH]; intros w; cbn [loop_trace trip_count].
  - reflexivity.
  - destruct (gotFinish w); [reflexivity|].
    cbn [responses repeat app]. rewrite IH. reflexivity.
Qed.

Lemma responses_whole (argc : Z) (argv : list string) (b : nat)
      (tb : handle) (w : World) :
  responses ([EvCommandArgs argc argv; EvNew tb] ++
             loop_trace b tb w ++ [EvDelete tb]) =
  responses (loop_trace b tb w).
Proof.
  cbn [app responses]. rewrite responses_app. cbn [responses].
  apply app_nil_r.
Qed.

Lemma count_commandArgs_whole (argc : Z) (argv : list string) (b : nat)
      (tb : handle) (w : World) :
  count is_commandArgs ([EvCommandArgs argc argv; EvNew tb] ++
                        loop_trace b tb w ++ [EvDelete tb]) = 1%nat.
Proof.
  rewrite !count_app, (count_other_loop_trace is_commandArgs)
    by reflexivity.
  reflexivity.
Qed.

End SameFlag.

(** The stand-in's step counter counts the evaluation steps. *)
Lemma countdown_after_evals (n : Z) (j : nat) (tb : Z) (w : sim) :
  sim_steps (@after_evals (countdown n) j tb w) = sim_steps w + Z.of_nat j.
Proof.
  revert w. induction j as [|j IH]; intros w.
  - cbn [after_evals]. lia.
  - cbn [after_evals]. rewrite IH. cbn. lia.
Qed.

(** ** The properties of the driver *)

(** C1.  If the model raises the completion flag during evaluation step
    [k], with [k < 200000], the run consists of the argument call, the
    construction, exactly [k] iterations, the query that observes the flag
    and the deletion: [k] evaluation calls, none after the flag was
    observed, and one deletion, which comes last.  The world left behind
    is the one the model reached after [k] steps, with the instance
    deleted. *)
Theorem C1_early_completion_stops_the_loop
        {R : Runtime} (argc : Z) (argv : list string) (w0 : World)
        (k : nat) :
  let tb := fst (model_start argc argv w0) in
  let w := snd (model_start argc argv w0) in
  raises_at k tb w ->
  Z.of_nat k < 200000 ->
  exists st,
    run argc argv w0 = Some (0, st) /\
    trace st = [EvCommandArgs argc argv; EvNew tb] ++
               iterations k tb ++ [EvGotFinish true; EvDelete tb] /\
    count is_eval (trace st) = k /\
    no_eval_after_finish (trace st) /\
    count is_delete (trace st) = 1%nat /\
    world st = delete_tb tb (after_evals k tb w).
Proof.
  intros tb w Hraise Hk.
  assert (Hk' : (k < ceiling)%nat) by (pose proof ceiling_value; lia).
  destruct (run_closed_form argc argv w0) as (st & Hrun & Hworld & Htrace).
  fold tb w in Htrace, Hworld.
  rewrite (trip_count_raises _ _ _ _ Hraise Hk') in Hworld.
  exists st. split; [exact Hrun|]. rewrite Htrace.
  split; [|split; [|split; [|split; [|exact Hworld]]]].
  - rewrite (loop_trace_early k tb w Hraise Hk'), <- app_assoc. reflexivity.
  - rewrite count_eval_whole. exact (trip_count_raises _ _ _ _ Hraise Hk').
  - apply whole_no_eval_after_finish.
  - apply count_delete_whole.
Qed.

(** A design that finishes during its third evaluation step. *)
Lemma C1_witness_countdown_3 :
  exists st : @state (countdown 3),
    @run (countdown 3) 1 ["sim"%string] boot = Some (0, st) /\
    trace st =
      [EvCommandArgs 1 ["sim"%string]; EvNew (R := countdown 3) 4096;
       EvGotFinish false; EvEval (R := countdown 3) 4096;
       EvGotFinish false; EvEval (R := countdown 3) 4096;
       EvGotFinish false; EvEval (R := countdown 3) 4096;
       EvGotFinish true; EvDelete (R := countdown 3) 4096] /\
    count is_eval (trace st) = 3%nat /\
    no_eval_after_finish (trace st) /\
    count is_delete (trace st) = 1%nat /\
    world st = mkSim ["sim"%string] 3 [].
Proof.
  apply (@C1_early_completion_stops_the_loop
           (countdown 3) 1 ["sim"%string] boot 3%nat).
  - split.
    + intros [|[|[|j]]] Hj; [reflexivity | reflexivity | reflexivity | lia].
    + reflexivity.
  - lia.
Defined.

(** C2.  If the model never raises the completion flag, the loop makes
    exactly 200000 evaluation calls, each after a query answered "not
    finished", and the deletion of the instance follows at once: the
    world left behind is the one the model reached after 200000 steps,
    with the instance deleted. *)
Theorem C2_exhaustion_makes_200000_calls
        {R : Runtime} (argc : Z) (argv : list string) (w0 : World) :
  let tb := fst (model_start argc argv w0) in
  let w := snd (model_start argc argv w0) in
  never_raises tb w ->
  exists st,
    run argc argv w0 = Some (0, st) /\
    Z.of_nat (count is_eval (trace st)) = 200000 /\
    trace st = [EvCommandArgs argc argv; EvNew tb] ++
               iterations (Z.to_nat 200000) tb ++ [EvDelete tb] /\
    world st = delete_tb tb (after_evals (Z.to_nat 200000) tb w).
Proof.
  intros tb w Hnever.
  assert (Hdown : forall j, (j < ceiling)%nat ->
                            gotFinish (after_evals j tb w) = false)
    by (intros j _; apply Hnever).
  destruct (run_closed_form argc argv w0) as (st & Hrun & Hworld & Htrace).
  fold tb w in Htrace, Hworld.
  rewrite (trip_count_never _ _ _ Hdown) in Hworld.
  exists st. split; [exact Hrun|]. rewrite Htrace.
  split; [|split; [|exact Hworld]].
  - rewrite count_eval_whole, (trip_count_never _ _ _ Hdown).
    apply ceiling_value.
  - rewrite (loop_trace_exhausted tb w Hdown). reflexivity.
Qed.

(** A model whose flag stays down for ever. *)
Lemma C2_witness_free_running :
  exists st : @state free_running,
    @run free_running 1 ["sim"%string] boot = Some (0, st) /\
    Z.of_nat (count is_eval (trace st)) = 200000 /\
    trace st =
      [EvCommandArgs 1 ["sim"%string]; EvNew (R := free_running) 4096] ++
      @iterations free_running (Z.to_nat 200000) 4096 ++
      [EvDelete (R := free_running) 4096] /\
    world st =
      @delete_tb free_running 4096
        (@after_evals free_running (Z.to_nat 200000) 4096
                      (mkSim ["sim"%string] 0 [4096])).
Proof.
  apply (@C2_exhaustion_makes_200000_calls
           free_running 1 ["sim"%string] boot).
  intros j. reflexivity.
Defined.

(** C3.  Whatever the arguments and whatever the runtime and the model
    do, the run returns, and the status it returns is 0. *)
Theorem C3_exit_status_is_zero
        {R : Runtime} (argc : Z) (argv : list string) (w0 : World) :
  exists st, run argc argv w0 = Some (0, st).
Proof.
  destruct (run_closed_form argc argv w0) as (st & Hrun & _).
  exists st. exact Hrun.
Qed.

(** C4.  Every run constructs one model instance and deletes one, the
    same, after it: the trace has one [new] and one [delete], and reads
    "... new tb ... delete tb", where [tb] is the instance that [new]
    returned.  Both calls take effect: the world left behind is the world
    [new] produced, evaluated some number of times, with [tb] deleted. *)
Theorem C4_one_allocation_one_deallocation
        {R : Runtime} (argc : Z) (argv : list string) (w0 : World) :
  let tb := fst (new_tb (commandArgs argc argv w0)) in
  let w := snd (new_tb (commandArgs argc argv w0)) in
  exists st,
    run argc argv w0 = Some (0, st) /\
    count is_new (trace st) = 1%nat /\
    count is_delete (trace st) = 1%nat /\
    (exists before between,
       trace st = before ++ EvNew tb :: between ++ [EvDelete tb]) /\
    (exists n, world st = delete_tb tb (after_evals n tb w)).
Proof.
  intros tb w.
  destruct (run_closed_form argc argv w0) as (st & Hrun & Hworld & Htrace).
  unfold model_start in Hworld, Htrace. fold tb w in Hworld, Htrace.
  exists st. split; [exact Hrun|]. rewrite Htrace.
  split; [apply count_new_whole|].
  split; [apply count_delete_whole|].
  split.
  - exists [EvCommandArgs argc argv]. eexists. reflexivity.
  - exists (trip_count ceiling tb w). exact Hworld.
Qed.


(** C6.  Every run returns, whatever the model does, and it makes at most
    200000 evaluation calls. *)
Theorem C6_bounded_loop_terminates
        {R : Runtime} (argc : Z) (argv : list string) (w0 : World) :
  exists status st,
    run argc argv w0 = Some (status, st) /\
    Z.of_nat (count is_eval (trace st)) <= 200000.
Proof.
  destruct (run_closed_form argc argv w0) as (st & Hrun & _ & Htrace).
  exists 0, st. split; [exact Hrun|].
  rewrite Htrace, count_eval_whole.
  pose proof (trip_count_le ceiling (fst (model_start argc argv w0))
                            (snd (model_start argc argv w0))).
  pose proof ceiling_value. lia.
Qed.

(** The evaluation calls of a whole run are as many as the completion
    queries answered "not finished". *)
Lemma whole_evals_from_responses
      {R : Runtime} (argc : Z) (argv : list string) (b : nat)
      (tb : handle) (w : World) :
  count is_eval ([EvCommandArgs argc argv; EvNew tb] ++
                 loop_trace b tb w ++ [EvDelete tb]) =
  List.length
    (filter negb
            (responses ([EvCommandArgs argc argv; EvNew tb] ++
                        loop_trace b tb w ++ [EvDelete tb]))).
Proof.
  rewrite count_eval_whole, <- count_eval_loop_trace.
  rewrite loop_evals_from_responses.
  cbn [app responses]. rewrite responses_app. cbn [responses].
  rewrite app_nil_r. reflexivity.
Qed.

(** C7, as stated, fails: the completion query is a static call on the
    runtime, not a call on the model object, and the model object is also
    constructed and deleted.  Already so on a model that is finished
    before the first iteration. *)
Lemma C7_counterexample_query_not_on_handle :
  exists st : @state (countdown 0),
    @run (countdown 0) 1 ["sim"%string] boot = Some (0, st) /\
    ~ two_handle_operations (trace st).
Proof.
  eexists. split; [vm_compute; reflexivity|].
  intros [_ Hquery].
  destruct (Hquery (EvGotFinish true)) as [tb Htb].
  - cbn. auto.
  - reflexivity.
  - discriminate Htb.
Qed.

(** C7, amended.  The calls the driver makes on a model object are the
    construction, evaluation steps and the deletion, all on the one
    instance [tb]; the completion query is a call on the runtime; and
    between construction and deletion the driver makes no call but
    evaluation steps on [tb] and completion queries. *)
Theorem C7_operations_on_the_handle
        {R : Runtime} (argc : Z) (argv : list string) (w0 : World) :
  let tb := fst (model_start argc argv w0) in
  exists st,
    run argc argv w0 = Some (0, st) /\
    Forall (fun e =>
              match event_target e with
              | OnModel tb' =>
                  tb' = tb /\
                  (is_new e = true \/ is_eval e = true \/ is_delete e = true)
              | OnRuntime =>
                  is_commandArgs e = true \/ is_gotFinish e = true
              end) (trace st) /\
    exists body,
      trace st = [EvCommandArgs argc argv; EvNew tb] ++ body ++
                 [EvDelete tb] /\
      Forall (fun e => e = EvEval tb \/ exists a, e = EvGotFinish a) body.
Proof.
  intros tb.
  destruct (run_closed_form argc argv w0) as (st & Hrun & _ & Htrace).
  fold tb in Htrace.
  pose proof (loop_trace_calls ceiling tb (snd (model_start argc argv w0)))
    as Hbody.
  exists st. split; [exact Hrun|]. rewrite Htrace. split.
  - repeat (apply Forall_cons; [cbn; auto|]).
    apply Forall_app. split.
    + eapply Forall_impl; [|exact Hbody].
      intros e [He|[a He]]; rewrite He; cbn; auto.
    + apply Forall_cons; [cbn; auto | apply Forall_nil].
  - eexists. split; [reflexivity | exact Hbody].
Qed.

(** C8.  Take any two argument vectors.  If the runtime's completion
    flag reads the same in both runs after each number of evaluation
    steps (as far as the ceiling reaches), the two runs make the same
    number of evaluation calls, see the same answers and return the same
    status; each hands its arguments to the runtime as they are, in its
    first call, and leaves the world its own model reached after that
    common number of steps. *)
Theorem C8_control_flow_ignores_arguments
        {R : Runtime} (argc1 argc2 : Z) (argv1 argv2 : list string)
        (w1 w2 : World) :
  let tb1 := fst (model_start argc1 argv1 w1) in
  let u1 := snd (model_start argc1 argv1 w1) in
  let tb2 := fst (model_start argc2 argv2 w2) in
  let u2 := snd (model_start argc2 argv2 w2) in
  (forall j, Z.of_nat j < 200000 ->
             gotFinish (after_evals j tb1 u1) =
             gotFinish (after_evals j tb2 u2)) ->
  exists status n st1 st2,
    run argc1 argv1 w1 = Some (status, st1) /\
    run argc2 argv2 w2 = Some (status, st2) /\
    count is_eval (trace st1) = n /\
    count is_eval (trace st2) = n /\
    observed_responses argc1 argv1 w1 = observed_responses argc2 argv2 w2 /\
    hd_error (trace st1) = Some (EvCommandArgs argc1 argv1) /\
    hd_error (trace st2) = Some (EvCommandArgs argc2 argv2) /\
    world st1 = delete_tb tb1 (after_evals n tb1 u1) /\
    world st2 = delete_tb tb2 (after_evals n tb2 u2).
Proof.
  intros tb1 u1 tb2 u2 Hsame.
  assert (Hn : trip_count ceiling tb1 u1 = trip_count ceiling tb2 u2).
  { apply trip_count_same_flag. intros j Hj. apply Hsame.
    pose proof ceiling_value. lia. }
  destruct (run_closed_form argc1 argv1 w1)
    as (st1 & Hrun1 & Hworld1 & Htrace1).
  destruct (run_closed_form argc2 argv2 w2)
    as (st2 & Hrun2 & Hworld2 & Htrace2).
  fold tb1 u1 in Hworld1, Htrace1. fold tb2 u2 in Hworld2, Htrace2.
  exists 0, (trip_count ceiling tb1 u1), st1, st2.
  split; [exact Hrun1|]. split; [exact Hrun2|].
  split; [rewrite Htrace1; apply count_eval_whole|].
  split; [rewrite Htrace2, Hn; apply count_eval_whole|].
  split.
  { unfold observed_responses. rewrite Hrun1, Hrun2, Htrace1, Htrace2.
    rewrite !responses_whole, !responses_loop_trace, Hn. reflexivity. }
  split; [rewrite Htrace1; reflexivity|].
  split; [rewrite Htrace2; reflexivity|].
  split; [exact Hworld1|].
  rewrite Hn. exact Hworld2.
Qed.

(** Two argument vectors on a design that finishes during its second
    evaluation step: the runtime records different arguments, the flag
    reads the same. *)
Lemma C8_witness_two_argument_vectors :
  exists status n (st1 st2 : @state (countdown 2)),
    @run (countdown 2) 1 ["sim"%string] boot = Some (status, st1) /\
    @run (countdown 2) 3 ["sim"; "+trace"; "--bogus"]%string boot =
      Some (status, st2) /\
    count is_eval (trace st1) = n /\
    count is_eval (trace st2) = n /\
    @observed_responses (countdown 2) 1 ["sim"%string] boot =
    @observed_responses (countdown 2) 3
       ["sim"; "+trace"; "--bogus"]%string boot /\
    hd_error (trace st1) = Some (EvCommandArgs 1 ["sim"%string]) /\
    hd_error (trace st2) =
      Some (EvCommandArgs 3 ["sim"; "+trace"; "--bogus"]%string) /\
    world st1 =
      @delete_tb (countdown 2) 4096
        (@after_evals (countdown 2) n 4096
                      (mkSim ["sim"%string] 0 [4096])) /\
    world st2 =
      @delete_tb (countdown 2) 4096
        (@after_evals (countdown 2) n 4096
                      (mkSim ["sim"; "+trace"; "--bogus"]%string 0 [4096])).
Proof.
  apply (@C8_control_flow_ignores_arguments (countdown 2)).
  intros j _.
  cbn [gotFinish countdown]. rewrite !countdown_after_evals.
  reflexivity.
Defined.

(** C9.  If the completion flag is already up when the loop is entered,
    the run is: arguments, construction, one query, deletion.  No
    evaluation call, one deletion, status 0; the world left behind is the
    one the construction produced, with the instance deleted. *)
Theorem C9_finished_before_first_check
        {R : Runtime} (argc : Z) (argv : list string) (w0 : World) :
  let tb := fst (model_start argc argv w0) in
  let w := snd (model_start argc argv w0) in
  gotFinish w = true ->
  exists st,
    run argc argv w0 = Some (0, st) /\
    trace st = [EvCommandArgs argc argv; EvNew tb;
                EvGotFinish true; EvDelete tb] /\
    count is_eval (trace st) = O /\
    count is_delete (trace st) = 1%nat /\
    world st = delete_tb tb w.
Proof.
  intros tb w Hup.
  assert (Hraise : raises_at O tb w)
    by (split; [intros j Hj; inversion Hj | exact Hup]).
  assert (Hk : (O < ceiling)%nat) by (pose proof ceiling_value; lia).
  destruct (run_closed_form argc argv w0) as (st & Hrun & Hworld & Htrace).
  fold tb w in Htrace, Hworld.
  rewrite (trip_count_raises _ _ _ _ Hraise Hk) in Hworld.
  rewrite (loop_trace_early O tb w Hraise Hk) in Htrace.
  exists st. split; [exact Hrun|]. rewrite Htrace.
  split; [reflexivity|]. split; [reflexivity|]. split; [reflexivity|].
  exact Hworld.
Qed.

(** A design that is finished before its first evaluation step. *)
Lemma C9_witness_countdown_0 :
  exists st : @state (countdown 0),
    @run (countdown 0) 1 ["sim"%string] boot = Some (0, st) /\
    trace st = [EvCommandArgs 1 ["sim"%string];
                EvNew (R := countdown 0) 4096;
                EvGotFinish true;
                EvDelete (R := countdown 0) 4096] /\
    count is_eval (trace st) = O /\
    count is_delete (trace st) = 1%nat /\
    world st = mkSim ["sim"%string] 0 [].
Proof.
  apply (@C9_finished_before_first_check (countdown 0) 1 ["sim"%string] boot).
  reflexivity.
Defined.


(** ** Further properties of the loop *)

Section Polling.

Context {R : Runtime}.

Lemma count_gotFinish_iterations (n : nat) (tb : handle) :
  count is_gotFinish (iterations n tb) = n.
Proof.
  induction n as [|n IH]; cbn [iterations]; [reflexivity|].
  rewrite !count_cons, IH. reflexivity.
Qed.

Lemma length_iterations (n : nat) (tb : handle) :
  List.length (iterations n tb) = (2 * n)%nat.
Proof.
  induction n as [|n IH]; cbn [iterations List.length]; [reflexivity|].
  rewrite IH. lia.
Qed.

Lemma in_iterations (n : nat) (tb : handle) (e : event) :
  In e (iterations n tb) -> e = EvGotFinish false \/ e = EvEval tb.
Proof.
  induction n as [|n IH]; cbn [iterations].
  - intros [].
  - intros [He|[He|Hin]]; auto.
Qed.

(** The queries of the loop: one per iteration, and one more when the
    loop is left before the ceiling. *)
Lemma count_gotFinish_loop_trace (b : nat) (tb : handle) (w : World) :
  count is_gotFinish (loop_trace b tb w) =
  (trip_count b tb w + (if (trip_count b tb w <? b)%nat then 1 else 0))%nat.
Proof.
  rewrite loop_trace_shape at 1.
  rewrite count_app, count_gotFinish_iterations.
  destruct (trip_count b tb w <? b)%nat; reflexivity.
Qed.

Lemma length_loop_trace (b : nat) (tb : handle) (w : World) :
  List.length (loop_trace b tb w) =
  (count is_eval (loop_trace b tb w) +
   count is_gotFinish (loop_trace b tb w))%nat.
Proof.
  rewrite count_gotFinish_loop_trace, count_eval_loop_trace.
  rewrite loop_trace_shape at 1.
  rewrite length_app, length_iterations.
  destruct (trip_count b tb w <? b)%nat; cbn [List.length]; lia.
Qed.

(** Every world the loop evaluated had the flag down. *)
Lemma trip_count_flag_down (b : nat) (tb : handle) :
  forall w j, (j < trip_count b tb w)%nat ->
              gotFinish (after_evals j tb w) = false.
Proof.
  induction b as [|b IH]; intros w j Hj; cbn [trip_count] in Hj; [lia|].
  destruct (gotFinish w) eqn:Hflag; [lia|].
  destruct j as [|j]; [exact Hflag|].
  cbn [after_evals]. apply IH. lia.
Qed.

(** A loop left before the ceiling was left on a raised flag. *)
Lemma trip_count_flag_up (b : nat) (tb : handle) :
  forall w, (trip_count b tb w < b)%nat ->
            gotFinish (after_evals (trip_count b tb w) tb w) = true.
Proof.
  induction b as [|b IH]; intros w Hlt; cbn [trip_count] in *; [lia|].
  destruct (gotFinish w) eqn:Hflag; [exact Hflag|].
  cbn [after_evals]. apply IH. lia.
Qed.

End Polling.

(** X1.  The runtime is asked for completion once per evaluation call
    and once more when the loop is left early; at the ceiling the
    condition short-circuits, so the number of queries is the smaller of
    200000 and the number of evaluation calls plus one. *)
Theorem X1_number_of_completion_queries
        {R : Runtime} (argc : Z) (argv : list string) (w0 : World) :
  exists st,
    run argc argv w0 = Some (0, st) /\
    Z.of_nat (count is_gotFinish (trace st)) =
    Z.min 200000 (Z.of_nat (count is_eval (trace st)) + 1).
Proof.
  destruct (run_closed_form argc argv w0) as (st & Hrun & _ & Htrace).
  exists st. split; [exact Hrun|].
  rewrite Htrace, count_eval_whole.
  rewrite !count_app, count_gotFinish_loop_trace.
  set (tb := fst (model_start argc argv w0)).
  set (w := snd (model_start argc argv w0)).
  pose proof (trip_count_le ceiling tb w) as Hle.
  pose proof ceiling_value as Hc.
  change (count is_gotFinish [EvCommandArgs argc argv; EvNew tb]) with O.
  change (count is_gotFinish [EvDelete tb]) with O.
  destruct (Nat.ltb_spec (trip_count ceiling tb w) ceiling); lia.
Qed.

(** X2.  Only the first 200000 answers matter.  If the flag is down
    before each of the first 200000 evaluation steps, then whatever it
    does afterwards (raised by step 200000 itself, say) the driver never
    sees it up: 200000 evaluation calls, no query answered "finished",
    and the same trace and final world as for a model that never
    finishes. *)
Theorem X2_completion_at_the_ceiling_is_not_observed
        {R : Runtime} (argc : Z) (argv : list string) (w0 : World) :
  let tb := fst (model_start argc argv w0) in
  let w := snd (model_start argc argv w0) in
  (forall j, Z.of_nat j < 200000 -> gotFinish (after_evals j tb w) = false) ->
  exists st,
    run argc argv w0 = Some (0, st) /\
    Z.of_nat (count is_eval (trace st)) = 200000 /\
    ~ In (EvGotFinish true) (trace st) /\
    trace st = [EvCommandArgs argc argv; EvNew tb] ++
               iterations (Z.to_nat 200000) tb ++ [EvDelete tb] /\
    world st = delete_tb tb (after_evals (Z.to_nat 200000) tb w).
Proof.
  intros tb w Hfirst.
  assert (Hdown : forall j, (j < ceiling)%nat ->
                            gotFinish (after_evals j tb w) = false)
    by (intros j Hj; apply Hfirst; pose proof ceiling_value; lia).
  destruct (run_closed_form argc argv w0) as (st & Hrun & Hworld & Htrace).
  fold tb w in Htrace, Hworld.
  rewrite (trip_count_never _ _ _ Hdown) in Hworld.
  rewrite (loop_trace_exhausted tb w Hdown) in Htrace.
  exists st. split; [exact Hrun|]. rewrite Htrace.
  split; [|split; [|split; [reflexivity | exact Hworld]]].
  - rewrite !count_app, count_eval_iterations. cbn.
    pose proof ceiling_value. lia.
  - intros Hin. apply in_app_or in Hin as [Hin|Hin].
    + destruct Hin as [He|[He|[]]]; discriminate He.
    + apply in_app_or in Hin as [Hin|Hin].
      * apply in_iterations in Hin as [He|He]; discriminate He.
      * destruct Hin as [He|[]]; discriminate He.
Qed.

(** A design that raises the flag during evaluation step 200000: too
    late to be seen. *)
Lemma X2_witness_countdown_200000 :
  @gotFinish (countdown 200000)
     (@after_evals (countdown 200000) (Z.to_nat 200000) 4096
                   (mkSim ["sim"%string] 0 [4096])) = true /\
  exists st : @state (countdown 200000),
    @run (countdown 200000) 1 ["sim"%string] boot = Some (0, st) /\
    Z.of_nat (count is_eval (trace st)) = 200000 /\
    ~ In (EvGotFinish true) (trace st) /\
    trace st =
      [EvCommandArgs 1 ["sim"%string]; EvNew (R := countdown 200000) 4096] ++
      @iterations (countdown 200000) (Z.to_nat 200000) 4096 ++
      [EvDelete (R := countdown 200000) 4096] /\
    world st =
      @delete_tb (countdown 200000) 4096
        (@after_evals (countdown 200000) (Z.to_nat 200000) 4096
                      (mkSim ["sim"%string] 0 [4096])).
Proof.
  split.
  - apply Z.leb_le. rewrite countdown_after_evals. cbn [sim_steps]. lia.
  - apply (@X2_completion_at_the_ceiling_is_not_observed
             (countdown 200000) 1 ["sim"%string] boot).
    intros j Hj. apply Z.leb_gt. rewrite countdown_after_evals.
    cbn [model_start snd new_tb commandArgs countdown sim_steps boot]. lia.
Defined.

(** X3.  The number of evaluation calls is the first step count at which
    the flag is up, capped at 200000: every world that was evaluated had
    the flag down, and a run with fewer than 200000 evaluation calls
    stopped in a world where the flag is up. *)
Theorem X3_loop_leaves_early_only_on_completion
        {R : Runtime} (argc : Z) (argv : list string) (w0 : World) :
  let tb := fst (model_start argc argv w0) in
  let w := snd (model_start argc argv w0) in
  exists st,
    run argc argv w0 = Some (0, st) /\
    (forall j, (j < count is_eval (trace st))%nat ->
               gotFinish (after_evals j tb w) = false) /\
    (Z.of_nat (count is_eval (trace st)) < 200000 ->
     gotFinish (after_evals (count is_eval (trace st)) tb w) = true).
Proof.
  intros tb w.
  destruct (run_closed_form argc argv w0) as (st & Hrun & _ & Htrace).
  fold tb w in Htrace.
  exists st. split; [exact Hrun|].
  rewrite Htrace, count_eval_whole. split.
  - apply trip_count_flag_down.
  - intros Hlt. apply trip_count_flag_up.
    pose proof ceiling_value. lia.
Qed.

(** X4.  A run makes one argument call, one construction and one
    deletion, and no external call besides these, the evaluation calls
    and the completion queries: hence at most 400003 calls. *)
Theorem X4_total_number_of_external_calls
        {R : Runtime} (argc : Z) (argv : list string) (w0 : World) :
  exists st,
    run argc argv w0 = Some (0, st) /\
    count is_commandArgs (trace st) = 1%nat /\
    count is_new (trace st) = 1%nat /\
    count is_delete (trace st) = 1%nat /\
    List.length (trace st) =
      (3 + count is_eval (trace st) + count is_gotFinish (trace st))%nat /\
    Z.of_nat (List.length (trace st)) <= 400003.
Proof.
  destruct (run_closed_form argc argv w0) as (st & Hrun & _ & Htrace).
  exists st. split; [exact Hrun|].
  rewrite Htrace.
  split; [apply count_commandArgs_whole|].
  split; [apply count_new_whole|].
  split; [apply count_delete_whole|].
  set (tb := fst (model_start argc argv w0)).
  set (w := snd (model_start argc argv w0)).
  rewrite !count_app, !length_app, length_loop_trace.
  rewrite count_gotFinish_loop_trace, count_eval_loop_trace.
  change (count is_gotFinish [EvCommandArgs argc argv; EvNew tb]) with O.
  change (count is_gotFinish [EvDelete tb]) with O.
  change (count is_eval [EvCommandArgs argc argv; EvNew tb]) with O.
  change (count is_eval [EvDelete tb]) with O.
  cbn [List.length].
  pose proof (trip_count_le ceiling tb w) as Hle.
  pose proof ceiling_value as Hc.
  destruct (Nat.ltb_spec (trip_count ceiling tb w) ceiling); lia.
Qed.
